(** * Two React glue modules of the Sentry frontend

    - [GroupLocations]: the geo-locations view
      (app/views/groupLocations/index.jsx).
    - [WithRepositories]: the [withRepositories] higher-order component and
      the part of [RepositoryStore] it touches.

    React component state is a JS object that [setState] updates by merging
    a partial object into it; both components are modelled with that merge
    written out.  Callbacks of the API client and tasks of the event loop are
    events folded over the state. *)

From Stdlib Require Import ZArith.
From stdpp Require Import gmap strings list.

Local Open Scope Z_scope.

(** ** The geo-locations view *)

Module GroupLocations.

(** One entry of the response's [topValues]: [{value, count}]. *)
Record Tag := { value : string; count : Z }.

(** The body of [GET /issues/{groupId}/tags/user.location/]: a JSON object
    with [topValues]; this is what the success callback is given. *)
Record Response := { topValues : list Tag }.

(** [this.state]; [data = None] is JS [null]. *)
Record State := {
  loading : bool;
  error : bool;
  data : option Response
}.

(** The argument of [setState]: a field that is [None] is not mentioned in
    the object literal and keeps its value. *)
Record Patch := {
  set_loading : option bool;
  set_error : option bool;
  set_data : option (option Response)
}.

Definition setState (p : Patch) (s : State) : State :=
  {| loading := default (loading s) (set_loading p);
     error := default (error s) (set_error p);
     data := default (data s) (set_data p) |}.

Definition getInitialState : State :=
  {| loading := true; error := false; data := None |}.

(** [url] of [fetchData]. *)
Definition url (groupId : string) : string :=
  "/issues/" +:+ groupId +:+ "/tags/user.location/".

(** The synchronous part of [fetchData]: the [setState] before
    [this.api.request]. *)
Definition fetchData (s : State) : State :=
  setState {| set_loading := Some true; set_error := Some false;
              set_data := None |} s.

Definition componentWillMount (s : State) : State := fetchData s.

(** The [success] callback handed to [this.api.request]. *)
Definition onSuccess (d : Response) (s : State) : State :=
  setState {| set_data := Some (Some d); set_error := Some false;
              set_loading := Some false |} s.

(** The [error] callback handed to [this.api.request]. *)
Definition onError (s : State) : State :=
  setState {| set_data := None; set_error := Some true;
              set_loading := Some false |} s.

(** What happens to a component: [fetchData] runs (from
    [componentWillMount]), and the API client calls one of the two
    callbacks. *)
Inductive event :=
| FetchData
| Success (d : Response)
| Failure.

Definition is_callback (e : event) : bool :=
  match e with
  | FetchData => false
  | Success _ | Failure => true
  end.

Definition is_success (e : event) : bool :=
  match e with
  | Success _ => true
  | FetchData | Failure => false
  end.

Definition step (s : State) (e : event) : State :=
  match e with
  | FetchData => fetchData s
  | Success d => onSuccess d s
  | Failure => onError s
  end.

(** The state after a history of events, starting from
    [getInitialState]. *)
Definition run (evs : list event) : State := foldl step getInitialState evs.

Section Render.
(** utils/countryCodes is imported but is not part of the sources: the
    table is a parameter.  [countryCodes !! v] is the property read
    [countryCodes[v]], [None] standing for [undefined]. *)
Context {Coords : Type} (countryCodes : gmap string Coords).

(** One element of the series handed to [GeoMap]:
    [[countryCodes[tag.value], tag.count]]. *)
Definition point (tag : Tag) : option Coords * Z :=
  (countryCodes !! value tag, count tag).

Inductive Element :=
| LoadingIndicator
| LoadingError
| GeoMap (series : list (option Coords * Z)).

(** The outcome of [render]: an element, or the [TypeError] of reading
    [topValues] of [null]. *)
Inductive Rendered :=
| Shows (el : Element)
| TypeError.

Definition render (s : State) : Rendered :=
  if loading s then Shows LoadingIndicator
  else if error s then Shows LoadingError
  else match data s with
       | None => TypeError
       | Some d => Shows (GeoMap (point <$> topValues d))
       end.
End Render.

Arguments LoadingIndicator {Coords}.
Arguments LoadingError {Coords}.
Arguments TypeError {Coords}.

End GroupLocations.

(** ** JS objects *)

Module JS.

(** [Repository] and [Error] are opaque to this code. *)
Definition Repository := string.
Definition Error := string.

(** The JS values that flow through the decorator and the store. *)
Inductive val :=
| VUndef
| VBool (b : bool)
| VStr (s : string)
| VRepos (rs : list Repository)
| VError (e : Error)
| VRef (n : nat).

#[global] Instance val_eq_dec : EqDecision val.
Proof. solve_decision. Defined.

(** A JS object: own properties by name.  A property can be present with
    the value [undefined]. *)
Abbreviation obj := (gmap string val).

(** The property read [o.k]. *)
Definition prop (o : obj) (k : string) : val := default VUndef (o !! k).

(** JS truthiness, as [!x] sees it: arrays, errors and references are
    always truthy. *)
Definition truthy (v : val) : bool :=
  match v with
  | VUndef => false
  | VBool b => b
  | VStr s => negb (String.eqb s "")
  | VRepos _ | VError _ | VRef _ => true
  end.

(** The object literal [{...a, ...b}]: properties of [b] win. *)
Definition spread (a b : obj) : obj := b ∪ a.

End JS.

(** ** A store to run the decorator against *)

Module RepositoryStore.
Import JS.

(** app/stores/repositoryStore is imported by the decorator but is not among
    the sources: the theorems about the decorator take the store's [get]
    (and, for the event loop, its handler of the loading action) as
    parameters and state what they need of them.  This module is one store
    that meets those needs, the simplest that fits the two assignments of
    [fetchRepos]: its state is one object that belongs to the key in
    [orgSlug].  It is the concrete store of the examples and witnesses. *)

(** An entry with the three fields, each possibly [undefined]. *)
Definition entry (repositories repositoriesLoading repositoriesError : val)
  : obj :=
  {[ "repositories" := repositories;
     "repositoriesLoading" := repositoriesLoading;
     "repositoriesError" := repositoriesError ]}.

(** [get] of the one-slot store: the state's three fields when asked for
    the key the state belongs to, and an entry with nothing set for any
    other key. *)
Definition get (st : obj) (orgSlug : val) : obj :=
  if decide (prop st "orgSlug" = orgSlug) then
    entry (prop st "repositories") (prop st "repositoriesLoading")
      (prop st "repositoriesError")
  else entry VUndef VUndef VUndef.

(** The one-slot store's handler of the action that [getRepositories]
    fires: it does what the two assignments of [fetchRepos] do ahead of it
    (the comment there). *)
Definition loadRepositories (orgSlug : val) (st : obj) : obj :=
  <["orgSlug" := orgSlug]> (<["repositoriesLoading" := VBool true]> st).

End RepositoryStore.

(** ** The [withRepositories] decorator *)

Module WithRepositories.
Import JS.

(** React's [setState(patch)]: the patch is merged into the state. *)
Definition setState (patch s : obj) : obj := spread s patch.

(** The names of [InjectedProps]. *)
Definition injected : list string :=
  ["repositories"; "repositoriesLoading"; "repositoriesError"].

(** What the decorator does to the outside, in program order. *)
Inductive effect :=
| Write (field : string) (v : val)
| GetRepositories (api orgSlug : val).

Definition is_fetch (e : effect) : bool :=
  match e with
  | GetRepositories _ _ => true
  | Write _ _ => false
  end.

(** An action fired by an action creator and not run yet. *)
Inductive action :=
| LoadRepositories (orgSlug : val).

(** The shared part of the page: [RepositoryStore.state], the effects the
    decorators have had so far (oldest first), and the actions waiting at
    the back of the event loop. *)
Record World := {
  store : obj;
  log : list effect;
  queue : list action
}.

(** The assignment [RepositoryStore.state.field = v]. *)
Definition write (field : string) (v : val) (w : World) : World :=
  {| store := <[field := v]> (store w);
     log := log w ++ [Write field v];
     queue := queue w |}.

(** Modelled from the spec: [getRepositories] of
    app/actionCreators/repositories is imported but is not among the
    sources.  It is fire-and-forget (section 6): the call is issued, and
    (comment in [fetchRepos]) the action it fires is queued to the back of
    the event loop; results arrive later through the store. *)
Definition getRepositories (api orgSlug : val) (w : World) : World :=
  {| store := store w;
     log := log w ++ [GetRepositories api orgSlug];
     queue := queue w ++ [LoadRepositories orgSlug] |}.

(** The [getRepositories] calls issued so far. *)
Definition fetches (w : World) : list effect := filter is_fetch (log w).

(** A mounted decorator: [this.props] and [this.state]. *)
Record Instance := {
  props : obj;
  state : obj
}.

(** What happens to one mounted instance: the store notifies its listeners
    while holding [st], or the parent renders it again with new props. *)
Inductive update :=
| StoreUpdate (st : obj)
| NewProps (p : obj).

(** The test of [fetchRepos]:
    [!repoData.repositories && !repoData.repositoriesLoading]. *)
Definition needs_fetch (repoData : obj) : bool :=
  negb (truthy (prop repoData "repositories"))
  && negb (truthy (prop repoData "repositoriesLoading")).

(** [render]: the props handed to [WrappedComponent],
    [{...this.props, ...this.state}]. *)
Definition render (i : Instance) : obj := spread (props i) (state i).

Section Decorator.
(** [RepositoryStore.get]: the store is imported, not part of the
    sources, so the decorator takes it as a parameter. *)
Variable get : obj → val → obj.

Definition getInitialState (st : obj) (p : obj) : obj :=
  let orgSlug := prop p "orgSlug" in
  let repoData := get st orgSlug in
  spread {[ "repositories" := VUndef;
            "repositoriesLoading" := VUndef;
            "repositoriesError" := VUndef ]} repoData.

Definition fetchRepos (p : obj) (w : World) : World :=
  let api := prop p "api" in
  let orgSlug := prop p "orgSlug" in
  let repoData := get (store w) orgSlug in
  if needs_fetch repoData then
    getRepositories api orgSlug
      (write "orgSlug" orgSlug
         (write "repositoriesLoading" (VBool true) w))
  else w.

Definition componentDidMount (p : obj) (w : World) : World :=
  fetchRepos p w.

Definition onStoreUpdate (st : obj) (i : Instance) : Instance :=
  let orgSlug := prop (props i) "orgSlug" in
  let repoData := get st orgSlug in
  {| props := props i; state := setState (spread ∅ repoData) (state i) |}.

(** The instance React builds from props [p] while the store holds
    [st]. *)
Definition construct (st : obj) (p : obj) : Instance :=
  {| props := p; state := getInitialState st p |}.

Definition apply_update (i : Instance) (u : update) : Instance :=
  match u with
  | StoreUpdate st => onStoreUpdate st i
  | NewProps p => {| props := p; state := state i |}
  end.

(** An instance and its history since construction. *)
Definition lifetime (st : obj) (p : obj) (us : list update) : Instance :=
  foldl apply_update (construct st p) us.
End Decorator.

(** What a mount that fetches leaves in the effect log, read off the call
    it ends with: the two assignments of [fetchRepos], then the call. *)
Definition fetch_block (e : effect) : list effect :=
  match e with
  | GetRepositories api orgSlug =>
      [ Write "repositoriesLoading" (VBool true); Write "orgSlug" orgSlug;
        GetRepositories api orgSlug ]
  | Write _ _ => []
  end.

Section Mounts.
Variable get : obj → val → obj.

(** Decorators with the props [ps] mount one after the other. *)
Definition mount_all (ps : list obj) (w : World) : World :=
  foldl (λ w p, componentDidMount get p w) w ps.
End Mounts.

End WithRepositories.

(** ** The event loop around the decorators *)

Module Page.
Import JS WithRepositories.

(** Tasks that touch the shared world before any response has resolved: a
    decorator mounts, or the action at the head of the queue is run by the
    store. *)
Inductive task :=
| Mount (p : obj)
| RunAction.

Section Loop.
(** The store's side, not among the sources: [get], and the handler
    [loadRepositories] of the action that [getRepositories] fires. *)
Variable get : obj → val → obj.
Variable loadRepositories : val → obj → obj.

Definition run_action (w : World) : World :=
  match queue w with
  | [] => w
  | LoadRepositories orgSlug :: rest =>
      {| store := loadRepositories orgSlug (store w);
         log := log w;
         queue := rest |}
  end.

Definition run_task (w : World) (t : task) : World :=
  match t with
  | Mount p => componentDidMount get p w
  | RunAction => run_action w
  end.

Definition run (ts : list task) (w : World) : World := foldl run_task w ts.
End Loop.

(** What the guard of [fetchRepos] needs of the store: asked for the key
    its state belongs to, [get] reads the state's loading flag. *)
Definition reads_loading_flag (get : obj → val → obj) : Prop :=
  ∀ st k, prop st "orgSlug" = k →
          prop (get st k) "repositoriesLoading"
          = prop st "repositoriesLoading".

(** The handler of the loading action leaves the state belonging to the
    action's key and loading (the comment in [fetchRepos]: the two
    assignments bring forward what the action does). *)
Definition marks_loading (loadRepositories : val → obj → obj) : Prop :=
  ∀ k st, prop (loadRepositories k st) "orgSlug" = k
          ∧ prop (loadRepositories k st) "repositoriesLoading" = VBool true.

(** The state the two assignments of [fetchRepos] leave. *)
Definition marked (k : val) (st : obj) : obj :=
  <["orgSlug" := k]> (<["repositoriesLoading" := VBool true]> st).

(** A page on which nothing has been fetched or fired yet. *)
Definition quiet (st : obj) : World :=
  {| store := st; log := []; queue := [] |}.

(** The mounts of a schedule are all for the key [k]. *)
Definition only_key (k : val) (t : task) : bool :=
  match t with
  | Mount p => bool_decide (prop p "orgSlug" = k)
  | RunAction => true
  end.

End Page.

(** ** Concrete inputs used by the examples below *)

Module Samples.
Import JS.

(** Two rows of a country table, as [(lat, lng)] in thousandths of a
    degree. *)
Definition table : gmap string (Z * Z) :=
  {[ "US" := (37090, -95712); "FR" := (46227, 2213) ]}.

Definition us_fr : GroupLocations.Response :=
  {| GroupLocations.topValues :=
       [ {| GroupLocations.value := "US"; GroupLocations.count := 5 |};
         {| GroupLocations.value := "FR"; GroupLocations.count := 2 |} ] |}.

(** A response with a tag value the table does not know. *)
Definition us_unknown : GroupLocations.Response :=
  {| GroupLocations.topValues :=
       [ {| GroupLocations.value := "US"; GroupLocations.count := 5 |};
         {| GroupLocations.value := "Atlantis"; GroupLocations.count := 7 |} ] |}.

(** Props of a decorator for the organization "acme" whose caller also
    passes a [repositories] prop of its own. *)
Definition acme_props : obj :=
  {[ "orgSlug" := VStr "acme"; "api" := VRef 0;
     "repositories" := VRepos ["callers"] ]}.

(** Props of another decorator for the same organization. *)
Definition acme_props' : obj :=
  {[ "orgSlug" := VStr "acme"; "api" := VRef 0;
     "releaseVersion" := VStr "1.0" ]}.

(** Props of a decorator for the organization "bolt". *)
Definition bolt_props : obj :=
  {[ "orgSlug" := VStr "bolt"; "api" := VRef 0 ]}.

(** The store's state once the repositories of [orgSlug] have arrived. *)
Definition loaded (orgSlug : string) (rs : list Repository) : obj :=
  {[ "orgSlug" := VStr orgSlug; "repositories" := VRepos rs;
     "repositoriesLoading" := VBool false;
     "repositoriesError" := VUndef ]}.

(** A store that keeps the repositories of every organization in its state,
    under the organization's slug. *)
Definition keyed_get (st : obj) (orgSlug : val) : obj :=
  match orgSlug with
  | VStr slug => RepositoryStore.entry (prop st slug) VUndef VUndef
  | _ => RepositoryStore.entry VUndef VUndef VUndef
  end.

(** A store whose entries also report an error. *)
Definition get_with_error (st : obj) (orgSlug : val) : obj :=
  <["repositoriesError" := VError "boom"]> (RepositoryStore.get st orgSlug).

End Samples.

(** ** Properties of the geo-locations view *)

Module GroupLocationsProofs.
Import GroupLocations.

Lemma run_snoc evs e : run (evs ++ [e]) = step (run evs) e.
Proof. unfold run. by rewrite foldl_app. Qed.

(** Histories are handled from the last event backwards. *)
Lemma run_ind (P : State → Prop) :
  P getInitialState →
  (∀ s e, P s → P (step s e)) →
  ∀ evs, P (run evs).
Proof.
  intros Hinit Hstep evs.
  induction evs as [|e evs IH] using rev_ind; [exact Hinit|].
  rewrite run_snoc. by apply Hstep.
Qed.

(** The invariant behind [render]: a state that is neither loading nor in
    error holds a response. *)
Definition settled (s : State) : Prop :=
  loading s = false → error s = false → data s ≠ None.

Lemma settled_step s e : settled s → settled (step s e).
Proof.
  unfold settled.
  destruct e as [|d|]; cbn; intros Hs Hl He; try discriminate.
Qed.

Lemma settled_run evs : settled (run evs).
Proof.
  apply run_ind; [discriminate | intros; by apply settled_step].
Qed.

(** Without a success callback [data] is still [null]. *)
Lemma no_success_no_data evs :
  forallb (λ e, negb (is_success e)) evs = true → data (run evs) = None.
Proof.
  induction evs as [|e evs IH] using rev_ind; [done|].
  rewrite forallb_app, andb_true_iff. cbn. rewrite andb_true_r.
  intros [Hevs He]. rewrite run_snoc.
  destruct e; cbn in *; [by apply IH | discriminate | by apply IH].
Qed.

(** Without any callback the component is still loading. *)
Lemma no_callback_loading evs :
  forallb (λ e, negb (is_callback e)) evs = true → loading (run evs) = true.
Proof.
  induction evs as [|e evs IH] using rev_ind; [done|].
  rewrite forallb_app, andb_true_iff. cbn. rewrite andb_true_r.
  intros [Hevs He]. rewrite run_snoc.
  destruct e; cbn in *; [done | discriminate | discriminate].
Qed.

(** C1, as stated, fails: a failure callback that runs on a state already
    holding a response does not end in [{loading:false, error:true,
    data:null}]; the response stays in [data]. *)
Lemma failure_after_success_keeps_data :
  onError (onSuccess Samples.us_fr getInitialState)
  ≠ {| loading := false; error := true; data := None |}.
Proof. cbn. intros H. discriminate H. Qed.

(** C1 (amended): the failure callback sets [loading] to false and [error]
    to true and leaves [data] as it was; when no success callback ran
    before it, [data] is still [null] and the final state is exactly
    [{loading:false, error:true, data:null}]. *)
Theorem failure_sets_error_and_leaves_data (s : State) (evs : list event) :
  forallb (λ e, negb (is_success e)) evs = true →
  onError s = {| loading := false; error := true; data := data s |}
  ∧ run (evs ++ [Failure])
    = {| loading := false; error := true; data := None |}.
Proof.
  intros Hevs. split; [reflexivity|].
  rewrite run_snoc. cbn. unfold onError, setState. cbn.
  by rewrite (no_success_no_data evs Hevs).
Qed.

Lemma failure_sets_error_and_leaves_data_witness :
  onError (onSuccess Samples.us_fr getInitialState)
  = {| loading := false; error := true; data := Some Samples.us_fr |}
  ∧ run ([FetchData] ++ [Failure])
    = {| loading := false; error := true; data := None |}.
Proof.
  apply (failure_sets_error_and_leaves_data
           (onSuccess Samples.us_fr getInitialState) [FetchData]).
  reflexivity.
Defined.

(** C4: the success callback stores the response it is given in [data],
    unchanged, and sets [error] and [loading] to false, whatever the state
    was: applied to any state, and so after any history of the
    component. *)
Theorem success_stores_response
  (d : Response) (s : State) (evs : list event) :
  onSuccess d s = {| loading := false; error := false; data := Some d |}
  ∧ data (onSuccess d s) = Some d
  ∧ run (evs ++ [Success d])
    = {| loading := false; error := false; data := Some d |}.
Proof.
  split; [reflexivity|]. split; [reflexivity|].
  rewrite run_snoc. cbn [step]. unfold onSuccess, setState. reflexivity.
Qed.

(** C5: the initial state is [{loading:true, error:false, data:null}], and
    after any history in which no response callback has run, [render]
    gives the loading indicator. *)
Theorem initial_render_is_loading
  {Coords : Type} (countryCodes : gmap string Coords) (evs : list event) :
  forallb (λ e, negb (is_callback e)) evs = true →
  getInitialState = {| loading := true; error := false; data := None |}
  ∧ render countryCodes getInitialState = Shows LoadingIndicator
  ∧ render countryCodes (run evs) = Shows LoadingIndicator.
Proof.
  intros Hevs. split; [reflexivity|]. split; [reflexivity|].
  unfold render. by rewrite (no_callback_loading evs Hevs).
Qed.

Lemma initial_render_is_loading_witness :
  getInitialState = {| loading := true; error := false; data := None |}
  ∧ render Samples.table getInitialState = Shows LoadingIndicator
  ∧ render Samples.table (run [FetchData]) = Shows LoadingIndicator.
Proof.
  apply (initial_render_is_loading Samples.table [FetchData]).
  reflexivity.
Defined.

(** C3: after a successful response, whatever the table, [render] gives
    the map a series that is [topValues] mapped, in order, to
    [[countryCodes[value], count]]; in particular, for
    [topValues = [{US, 5}, {FR, 2}]] and a table that knows both countries
    the series is [[[coordsUS, 5], [coordsFR, 2]]]. *)
Theorem success_renders_mapped_series
  {Coords : Type} (countryCodes : gmap string Coords)
  (d : Response) (s : State) :
  render countryCodes (onSuccess d s)
  = Shows (GeoMap (map (λ tag, (countryCodes !! value tag, count tag))
                     (topValues d)))
  ∧ ∀ coordsUS coordsFR : Coords,
      countryCodes !! "US" = Some coordsUS →
      countryCodes !! "FR" = Some coordsFR →
      render countryCodes (onSuccess Samples.us_fr s)
      = Shows (GeoMap [(Some coordsUS, 5); (Some coordsFR, 2)]).
Proof.
  split; [reflexivity|]. intros coordsUS coordsFR HUS HFR.
  cbn. unfold point. cbn. by rewrite HUS, HFR.
Qed.

Lemma success_renders_mapped_series_witness :
  render Samples.table (onSuccess Samples.us_fr getInitialState)
  = Shows (GeoMap [(Some (37090, -95712), 5); (Some (46227, 2213), 2)]).
Proof.
  apply (proj2 (success_renders_mapped_series Samples.table
                  Samples.us_unknown getInitialState)
           (37090, -95712) (46227, 2213));
    reflexivity.
Defined.

(** C8: in every state the component can reach (any history of
    [fetchData] runs and callbacks from the initial state), [loading] and
    [error] both false imply that [data] is not [null], so [render] never
    reads [topValues] of [null]. *)
Theorem render_never_dereferences_null
  {Coords : Type} (countryCodes : gmap string Coords) (evs : list event) :
  (loading (run evs) = false → error (run evs) = false →
   data (run evs) ≠ None)
  ∧ render countryCodes (run evs) ≠ TypeError.
Proof.
  pose proof (settled_run evs) as Hs. split; [exact Hs|].
  unfold render, settled in *.
  destruct (loading (run evs)); [discriminate|].
  destruct (error (run evs)); [discriminate|].
  destruct (data (run evs)); [discriminate|].
  exfalso. by apply Hs.
Qed.

(** The series for a response with a value the table lacks. *)
Example unknown_value_is_kept :
  render Samples.table (onSuccess Samples.us_unknown getInitialState)
  = Shows (GeoMap [(Some (37090, -95712), 5); (None, 7)]).
Proof. reflexivity. Qed.

(** C9: after a successful response the series has as many entries as
    [topValues]; a tag whose value the table lacks is kept, at its
    position, as [[undefined, count]]. *)
Theorem series_keeps_every_tag
  {Coords : Type} (countryCodes : gmap string Coords)
  (d : Response) (s : State) :
  ∃ series,
    render countryCodes (onSuccess d s) = Shows (GeoMap series)
    ∧ length series = length (topValues d)
    ∧ ∀ (i : nat) (tag : Tag),
        topValues d !! i = Some tag →
        countryCodes !! value tag = None →
        series !! i = Some (None, count tag).
Proof.
  exists (point countryCodes <$> topValues d).
  split; [reflexivity|]. split; [by rewrite length_fmap|].
  intros i tag Hi Habsent.
  rewrite list_lookup_fmap, Hi. cbn. unfold point. by rewrite Habsent.
Qed.

End GroupLocationsProofs.

(** ** Properties of the decorator *)

Module WithRepositoriesProofs.
Import JS WithRepositories.

Lemma prop_lookup (o : obj) (k : string) (v : val) :
  o !! k = Some v → prop o k = v.
Proof. unfold prop. by intros ->. Qed.

Lemma elem_of_injected (n : string) :
  n ∈ injected →
  n = "repositories" ∨ n = "repositoriesLoading" ∨ n = "repositoriesError".
Proof. unfold injected. rewrite !elem_of_cons, elem_of_nil. tauto. Qed.

(** A key of the second object of a spread is read from it. *)
Lemma spread_lookup_r (a b : obj) (k : string) :
  is_Some (b !! k) → spread a b !! k = b !! k.
Proof.
  intros [v Hv]. unfold spread. rewrite Hv.
  by apply lookup_union_Some_l.
Qed.

Lemma prop_spread_r (a b : obj) (k : string) :
  is_Some (b !! k) → prop (spread a b) k = prop b k.
Proof. intros Hb. unfold prop. by rewrite spread_lookup_r. Qed.

Lemma spread_lookup_is_Some (a b : obj) (k : string) :
  is_Some (a !! k) → is_Some (spread a b !! k).
Proof.
  intros Ha. unfold spread. rewrite lookup_union_is_Some. by right.
Qed.

(** The three injected names are own properties of the state. *)
Definition has_injected (s : obj) : Prop :=
  ∀ n, n ∈ injected → is_Some (s !! n).

Section OnCode.
Variable get : obj → val → obj.

Lemma getInitialState_has_injected st p :
  has_injected (getInitialState get st p).
Proof.
  intros n Hn. unfold getInitialState. apply spread_lookup_is_Some.
  apply elem_of_injected in Hn as [-> | [-> | ->]]; by eexists.
Qed.

Lemma apply_update_has_injected i u :
  has_injected (state i) → has_injected (state (apply_update get i u)).
Proof.
  intros Hi n Hn. destruct u as [st | p]; cbn; [|by apply Hi].
  unfold setState. apply spread_lookup_is_Some. by apply Hi.
Qed.

Lemma lifetime_has_injected st p us :
  has_injected (state (lifetime get st p us)).
Proof.
  unfold lifetime.
  induction us as [|u us IH] using rev_ind.
  - apply getInitialState_has_injected.
  - rewrite foldl_app. cbn. by apply apply_update_has_injected.
Qed.
End OnCode.

(** C6: on mount the decorator runs [fetchRepos], which reads the store
    entry for its [orgSlug]; when the entry has neither repositories nor a
    loading flag it assigns [repositoriesLoading = true] and [orgSlug] in
    the store's state and only then calls [getRepositories]; in every other
    case it leaves the store, the calls issued and the queue as they
    were. *)
Theorem fetchRepos_fetches_iff_entry_is_blank
  (get : obj → val → obj) (p : obj) (w : World) :
  let orgSlug := prop p "orgSlug" in
  let repoData := get (store w) orgSlug in
  let blank :=
    truthy (prop repoData "repositories") = false
    ∧ truthy (prop repoData "repositoriesLoading") = false in
  componentDidMount get p w = fetchRepos get p w
  ∧ (blank →
     log (fetchRepos get p w)
     = log w ++ [ Write "repositoriesLoading" (VBool true);
                  Write "orgSlug" orgSlug;
                  GetRepositories (prop p "api") orgSlug ]
     ∧ store (fetchRepos get p w)
       = <["orgSlug" := orgSlug]>
           (<["repositoriesLoading" := VBool true]> (store w)))
  ∧ (¬ blank → fetchRepos get p w = w).
Proof.
  cbn zeta. split; [reflexivity|]. unfold fetchRepos, needs_fetch. split.
  - intros [-> ->]. cbn. by rewrite <- !app_assoc.
  - intros Hnot.
    destruct (truthy (prop (get (store w) (prop p "orgSlug")) "repositories"))
      eqn:Hr; [done|].
    destruct (truthy (prop (get (store w) (prop p "orgSlug"))
                        "repositoriesLoading")) eqn:Hl; [done|].
    exfalso. by apply Hnot.
Qed.

(** C10: whatever has happened to a decorator since it was built, each of
    the three injected names is an own property of its state, and [render]
    hands the wrapped component the state's value under that name (be it
    [undefined]), not the caller's prop of the same name. *)
Theorem render_state_overrides_props
  (get : obj → val → obj) (st p : obj) (us : list update) (n : string) :
  n ∈ injected →
  let i := lifetime get st p us in
  is_Some (state i !! n)
  ∧ render i !! n = state i !! n
  ∧ prop (render i) n = prop (state i) n.
Proof.
  intros Hn. cbn zeta.
  pose proof (lifetime_has_injected get st p us n Hn) as Hs.
  assert (render (lifetime get st p us) !! n
          = state (lifetime get st p us) !! n) as Hr
    by (unfold render; by apply spread_lookup_r).
  split; [done|]. split; [done|]. unfold prop. by rewrite Hr.
Qed.

Lemma render_state_overrides_props_witness :
  is_Some (state (lifetime RepositoryStore.get ∅ Samples.acme_props [])
           !! "repositories")
  ∧ render (lifetime RepositoryStore.get ∅ Samples.acme_props [])
    !! "repositories"
    = state (lifetime RepositoryStore.get ∅ Samples.acme_props [])
      !! "repositories"
  ∧ prop (render (lifetime RepositoryStore.get ∅ Samples.acme_props []))
      "repositories"
    = prop (state (lifetime RepositoryStore.get ∅ Samples.acme_props []))
        "repositories".
Proof.
  apply (render_state_overrides_props RepositoryStore.get ∅
           Samples.acme_props [] "repositories").
  repeat constructor.
Defined.

(** The caller's [repositories] prop is replaced by the state's
    [undefined]. *)
Example callers_repositories_prop_is_dropped :
  prop Samples.acme_props "repositories" = VRepos ["callers"]
  ∧ prop (render (construct RepositoryStore.get ∅ Samples.acme_props))
      "repositories" = VUndef.
Proof. split; reflexivity. Qed.

(** A mount on an empty store fetches; a mount on a store that already
    holds the key's repositories does nothing. *)
Example fetchRepos_on_empty_store :
  log (fetchRepos RepositoryStore.get Samples.acme_props
         {| store := ∅; log := []; queue := [] |})
  = [ Write "repositoriesLoading" (VBool true);
      Write "orgSlug" (VStr "acme");
      GetRepositories (VRef 0) (VStr "acme") ].
Proof. reflexivity. Qed.

Example fetchRepos_on_loaded_store :
  fetchRepos RepositoryStore.get Samples.acme_props
    {| store := Samples.loaded "acme" []; log := []; queue := [] |}
  = {| store := Samples.loaded "acme" []; log := []; queue := [] |}.
Proof. reflexivity. Qed.

(** *** With the store's [get] as the spec describes it *)

Lemma lookup_entry (a b c : val) (n : string) :
  RepositoryStore.entry a b c !! n
  = if decide (n = "repositories") then Some a
    else if decide (n = "repositoriesLoading") then Some b
    else if decide (n = "repositoriesError") then Some c
    else None.
Proof.
  unfold RepositoryStore.entry.
  repeat case_decide; subst; by simplify_map_eq.
Qed.

Lemma lookup_entry_other (a b c : val) (n : string) :
  n ∉ injected → RepositoryStore.entry a b c !! n = None.
Proof.
  unfold injected. rewrite !elem_of_cons, elem_of_nil. intros Hn.
  rewrite lookup_entry. repeat case_decide; tauto.
Qed.

Lemma entry_has_injected (a b c : val) (n : string) :
  n ∈ injected → is_Some (RepositoryStore.entry a b c !! n).
Proof.
  intros Hn. rewrite lookup_entry.
  apply elem_of_injected in Hn as [-> | [-> | ->]];
    repeat case_decide; try done; by apply mk_is_Some with (x := _).
Qed.

Lemma prop_entry_hit (st : obj) (n : string) :
  n ∈ injected →
  prop (RepositoryStore.entry (prop st "repositories")
          (prop st "repositoriesLoading") (prop st "repositoriesError")) n
  = prop st n.
Proof.
  intros Hn. unfold prop at 1. rewrite lookup_entry.
  apply elem_of_injected in Hn as [-> | [-> | ->]]; by repeat case_decide.
Qed.

Lemma prop_entry_blank (n : string) :
  prop (RepositoryStore.entry VUndef VUndef VUndef) n = VUndef.
Proof. unfold prop. rewrite lookup_entry. by repeat case_decide. Qed.






(** The decorator for "bolt" of the witness does show bolt's
    repositories. *)
Example bolt_shows_its_repositories :
  prop (state (construct Samples.keyed_get {[ "bolt" := VRepos ["b"] ]}
                 Samples.bolt_props)) "repositories"
  = VRepos ["b"].
Proof. reflexivity. Qed.

End WithRepositoriesProofs.

(** ** Two mounts for one key *)

Module PageProofs.
Import JS WithRepositories Page.

Lemma marked_key k st : prop (marked k st) "orgSlug" = k.
Proof. by apply WithRepositoriesProofs.prop_lookup, lookup_insert_eq. Qed.

Lemma marked_loading k st :
  prop (marked k st) "repositoriesLoading" = VBool true.
Proof.
  apply WithRepositoriesProofs.prop_lookup. unfold marked.
  rewrite lookup_insert_ne by done. apply lookup_insert_eq.
Qed.

(** Marking a state for one key and then for another leaves what marking
    it for the second alone leaves. *)
Lemma marked_marked k k' st : marked k' (marked k st) = marked k' st.
Proof.
  unfold marked. apply map_eq. intros n.
  destruct (decide (n = "orgSlug")) as [->|];
    [by rewrite !lookup_insert_eq|].
  destruct (decide (n = "repositoriesLoading")) as [->|].
  - rewrite !(lookup_insert_ne _ "orgSlug") by done.
    by rewrite !lookup_insert_eq.
  - by rewrite !lookup_insert_ne by congruence.
Qed.

(** A mount that fetches leaves the store marked for its key. *)
Lemma fetching_mount_marks (get : obj → val → obj) p w :
  needs_fetch (get (store w) (prop p "orgSlug")) = true →
  store (componentDidMount get p w) = marked (prop p "orgSlug") (store w).
Proof.
  intros Hneed. unfold componentDidMount, fetchRepos. by rewrite Hneed.
Qed.

(** After a mount for one key and a mount for another that both fetch, the
    store's state is what the second mount alone would have left: nothing
    in it tells that the first key was asked for. *)
Lemma first_key_leaves_no_trace (get : obj → val → obj) st pa pb :
  needs_fetch (get st (prop pa "orgSlug")) = true →
  needs_fetch (get (marked (prop pa "orgSlug") st) (prop pb "orgSlug"))
  = true →
  store (mount_all get [pa; pb] (quiet st)) = marked (prop pb "orgSlug") st.
Proof.
  intros Ha Hb. cbn.
  rewrite fetching_mount_marks; rewrite fetching_mount_marks; try done.
  apply marked_marked.
Qed.

Section OneKey.
Variable get : obj → val → obj.
Variable loadRepositories : val → obj → obj.
Hypothesis get_reads : reads_loading_flag get.
Hypothesis load_marks : marks_loading loadRepositories.

Lemma page_run_snoc ts t w :
  run get loadRepositories (ts ++ [t]) w
  = run_task get loadRepositories (run get loadRepositories ts w) t.
Proof. unfold run. by rewrite foldl_app. Qed.

Lemma page_run_cons t ts w :
  run get loadRepositories (t :: ts) w
  = run get loadRepositories ts (run_task get loadRepositories w t).
Proof. reflexivity. Qed.

(** A fetch for [k] is under way: the store's state belongs to [k] and
    says loading, and whatever is queued is the loading action for [k]. *)
Record in_flight (k : val) (w : World) : Prop := {
  flight_key : prop (store w) "orgSlug" = k;
  flight_loading : prop (store w) "repositoriesLoading" = VBool true;
  flight_queue : Forall (λ a, a = LoadRepositories k) (queue w)
}.

Lemma in_flight_get k w :
  in_flight k w →
  truthy (prop (get (store w) k) "repositoriesLoading") = true.
Proof. intros [Hk Hl _]. by rewrite (get_reads _ _ Hk), Hl. Qed.

(** While a fetch for [k] is under way, a decorator for [k] that mounts
    does nothing. *)
Lemma in_flight_mount_skips k p w :
  in_flight k w → prop p "orgSlug" = k →
  componentDidMount get p w = w.
Proof.
  intros Hw Hp. unfold componentDidMount, fetchRepos, needs_fetch.
  rewrite Hp, (in_flight_get k w Hw).
  by destruct (truthy (prop (get (store w) k) "repositories")).
Qed.

Lemma in_flight_run_action k w :
  in_flight k w →
  in_flight k (run_action loadRepositories w)
  ∧ log (run_action loadRepositories w) = log w.
Proof.
  intros Hw. pose proof Hw as [Hk Hl Hq]. unfold run_action.
  destruct (queue w) as [|[k'] rest] eqn:Hqueue; [by split|].
  apply Forall_cons in Hq as [[= ->] Hrest].
  destruct (load_marks k (store w)) as [Hkey Hloading].
  split; [|done]. by split.
Qed.

Lemma in_flight_task k w t :
  in_flight k w → only_key k t = true →
  in_flight k (run_task get loadRepositories w t)
  ∧ log (run_task get loadRepositories w t) = log w.
Proof.
  intros Hw Ht. destruct t as [p|]; cbn in *.
  - apply bool_decide_eq_true in Ht.
    by rewrite (in_flight_mount_skips k p w Hw Ht).
  - by apply in_flight_run_action.
Qed.

Lemma in_flight_run k ts w :
  in_flight k w → forallb (only_key k) ts = true →
  in_flight k (run get loadRepositories ts w)
  ∧ log (run get loadRepositories ts w) = log w.
Proof.
  revert w. induction ts as [|t ts IH]; intros w Hw Hts; [by split|].
  cbn in Hts. apply andb_true_iff in Hts as [Ht Hts].
  destruct (in_flight_task k w t Hw Ht) as [Hw' Hlog].
  rewrite page_run_cons. destruct (IH _ Hw' Hts) as [Hfin Hlog'].
  split; [done|]. by rewrite Hlog'.
Qed.

(** The first mount on a quiet page whose store has nothing for the key:
    two assignments, then the call. *)
Lemma first_mount st p :
  needs_fetch (get st (prop p "orgSlug")) = true →
  log (run get loadRepositories [Mount p] (quiet st))
  = [ Write "repositoriesLoading" (VBool true);
      Write "orgSlug" (prop p "orgSlug");
      GetRepositories (prop p "api") (prop p "orgSlug") ]
  ∧ in_flight (prop p "orgSlug")
      (run get loadRepositories [Mount p] (quiet st)).
Proof.
  intros Hneed. cbn. unfold componentDidMount, fetchRepos. cbn.
  rewrite Hneed. cbn. split; [done|]. split; cbn.
  - apply marked_key.
  - apply marked_loading.
  - by repeat constructor.
Qed.
End OneKey.

(** C2, as stated, fails: two decorators for "acme" mount before any
    response has resolved, a decorator for "bolt" mounts between them, and
    "acme" is fetched twice.  The second mount for "acme" cannot see the
    first: after the mounts for "acme" and "bolt" the store's state is the
    one a mount for "bolt" alone leaves, whatever the store's [get]. *)
Lemma other_key_mount_refetches :
  prop Samples.acme_props' "orgSlug" = prop Samples.acme_props "orgSlug"
  ∧ fetches (run RepositoryStore.get RepositoryStore.loadRepositories
               [ Mount Samples.acme_props; Mount Samples.bolt_props;
                 Mount Samples.acme_props' ] (quiet ∅))
    = [ GetRepositories (VRef 0) (VStr "acme");
        GetRepositories (VRef 0) (VStr "bolt");
        GetRepositories (VRef 0) (VStr "acme") ]
  ∧ ∀ (get : obj → val → obj) (st pa pb : obj),
      needs_fetch (get st (prop pa "orgSlug")) = true →
      needs_fetch (get (marked (prop pa "orgSlug") st) (prop pb "orgSlug"))
      = true →
      store (mount_all get [pa; pb] (quiet st))
      = marked (prop pb "orgSlug") st.
Proof.
  split; [reflexivity|]. split; [vm_compute; reflexivity|].
  apply first_key_leaves_no_trace.
Qed.

(** The same with no third decorator: the loading action of an earlier
    fetch for "bolt" is still queued when the first decorator for "acme"
    mounts, and is run before the second mounts. *)
Example pending_other_key_action_refetches :
  fetches (run RepositoryStore.get RepositoryStore.loadRepositories
             [ Mount Samples.acme_props; RunAction;
               Mount Samples.acme_props' ]
             {| store := ∅; log := [];
                queue := [LoadRepositories (VStr "bolt")] |})
  = [ GetRepositories (VRef 0) (VStr "acme");
      GetRepositories (VRef 0) (VStr "acme") ].
Proof. vm_compute. reflexivity. Qed.

(** C2 (amended): take a store whose [get] reads the loading flag of the key
    its state belongs to and whose loading action marks its key.  On a page
    where nothing is in flight and the store has neither repositories nor a
    loading flag for the key, let a decorator mount, then let the event
    loop run queued actions and mount further decorators for the same key,
    and no other, in any order, then let a second decorator for that key
    mount.  The first mount assigns the loading flag before it calls
    [getRepositories]; the second mount reads a truthy loading flag and
    changes nothing; exactly one [getRepositories] call has been issued. *)
Theorem two_mounts_issue_one_fetch
  (get : obj → val → obj) (loadRepositories : val → obj → obj)
  (st p1 p2 : obj) (mid : list task) :
  reads_loading_flag get →
  marks_loading loadRepositories →
  let k := prop p1 "orgSlug" in
  let before_second :=
    run get loadRepositories (Mount p1 :: mid) (quiet st) in
  prop p2 "orgSlug" = k →
  needs_fetch (get st k) = true →
  forallb (only_key k) mid = true →
  log (run get loadRepositories [Mount p1] (quiet st))
  = [ Write "repositoriesLoading" (VBool true);
      Write "orgSlug" k;
      GetRepositories (prop p1 "api") k ]
  ∧ truthy (prop (get (store before_second) (prop p2 "orgSlug"))
              "repositoriesLoading") = true
  ∧ run get loadRepositories (Mount p1 :: mid ++ [Mount p2]) (quiet st)
    = before_second
  ∧ fetches (run get loadRepositories (Mount p1 :: mid ++ [Mount p2])
               (quiet st))
    = [ GetRepositories (prop p1 "api") k ].
Proof.
  intros Hget Hload. cbn zeta. intros Hp2 Hneed Hmid.
  destruct (first_mount get loadRepositories st p1 Hneed) as [Hlog Hfirst].
  destruct (in_flight_run get loadRepositories Hget Hload _ mid _
              Hfirst Hmid) as [Hbefore Hlog'].
  change (run get loadRepositories (Mount p1 :: mid) (quiet st))
    with (run get loadRepositories mid
            (run get loadRepositories [Mount p1] (quiet st))).
  assert (run get loadRepositories (Mount p1 :: mid ++ [Mount p2]) (quiet st)
          = run get loadRepositories mid
              (run get loadRepositories [Mount p1] (quiet st))) as Hskip.
  { rewrite app_comm_cons, page_run_snoc.
    change (run get loadRepositories (Mount p1 :: mid) (quiet st))
      with (run get loadRepositories mid
              (run get loadRepositories [Mount p1] (quiet st))).
    cbn [run_task].
    by apply (in_flight_mount_skips get Hget _ p2 _ Hbefore). }
  split; [done|]. split; [|split; [done|]].
  - rewrite Hp2. by apply (in_flight_get get Hget).
  - rewrite Hskip. unfold fetches. by rewrite Hlog', Hlog.
Qed.

Lemma one_slot_store_reads_loading_flag :
  reads_loading_flag RepositoryStore.get.
Proof.
  intros st k Hk. unfold RepositoryStore.get.
  rewrite decide_True by done. apply WithRepositoriesProofs.prop_entry_hit.
  unfold injected. rewrite !elem_of_cons. tauto.
Qed.

Lemma one_slot_store_marks_loading :
  marks_loading RepositoryStore.loadRepositories.
Proof. intros k st. split; [apply marked_key | apply marked_loading]. Qed.

Lemma two_mounts_issue_one_fetch_witness :
  log (run RepositoryStore.get RepositoryStore.loadRepositories
         [Mount Samples.acme_props] (quiet ∅))
  = [ Write "repositoriesLoading" (VBool true);
      Write "orgSlug" (prop Samples.acme_props "orgSlug");
      GetRepositories (prop Samples.acme_props "api")
        (prop Samples.acme_props "orgSlug") ]
  ∧ truthy (prop (RepositoryStore.get
                    (store (run RepositoryStore.get
                              RepositoryStore.loadRepositories
                              (Mount Samples.acme_props :: [RunAction])
                              (quiet ∅)))
                    (prop Samples.acme_props' "orgSlug"))
              "repositoriesLoading") = true
  ∧ run RepositoryStore.get RepositoryStore.loadRepositories
      (Mount Samples.acme_props
         :: [RunAction] ++ [Mount Samples.acme_props']) (quiet ∅)
    = run RepositoryStore.get RepositoryStore.loadRepositories
        (Mount Samples.acme_props :: [RunAction]) (quiet ∅)
  ∧ fetches (run RepositoryStore.get RepositoryStore.loadRepositories
               (Mount Samples.acme_props
                  :: [RunAction] ++ [Mount Samples.acme_props'])
               (quiet ∅))
    = [ GetRepositories (prop Samples.acme_props "api")
          (prop Samples.acme_props "orgSlug") ].
Proof.
  apply (two_mounts_issue_one_fetch RepositoryStore.get
           RepositoryStore.loadRepositories ∅ Samples.acme_props
           Samples.acme_props' [RunAction]
           one_slot_store_reads_loading_flag one_slot_store_marks_loading);
    reflexivity.
Defined.

End PageProofs.

(** ** More on the geo-locations view *)

Module GroupLocationsCoverage.
Import GroupLocations GroupLocationsProofs.

Lemma append_cons (a : Ascii.ascii) (s t : string) :
  String a s +:+ t = String a (s +:+ t).
Proof. reflexivity. Qed.

Lemma length_append (s t : string) :
  String.length (s +:+ t) = (String.length s + String.length t)%nat.
Proof.
  induction s as [|a s IH]; [done|].
  rewrite append_cons. cbn. by rewrite IH.
Qed.

Lemma append_cancel_r (s1 s2 t : string) :
  s1 +:+ t = s2 +:+ t → s1 = s2.
Proof.
  revert s2. induction s1 as [|a s1 IH]; intros [|b s2] H.
  - done.
  - apply (f_equal String.length) in H.
    rewrite !length_append in H. cbn in H. lia.
  - apply (f_equal String.length) in H.
    rewrite !length_append in H. cbn in H. lia.
  - rewrite !append_cons in H. injection H as -> H. by rewrite (IH s2 H).
Qed.

(** Neither loading nor a failure touches [data]. *)
Lemma step_keeps_data s e :
  is_success e = false → data (step s e) = data s.
Proof. by destruct e. Qed.

(** [loading] and [error] are never set together. *)
Lemma flags_exclusive evs : loading (run evs) && error (run evs) = false.
Proof.
  apply (run_ind (λ s, loading s && error s = false)); [done|].
  by intros s [|d|] _.
Qed.

(** X1: what [render] shows depends on the last thing that happened only:
    the loading indicator after [fetchData] (even over a response already
    held), the map of the response just received after a success, the error
    panel after a failure (even over a response already held). *)
Theorem render_follows_last_event
  {Coords : Type} (countryCodes : gmap string Coords)
  (s : State) (evs : list event) (e : event) :
  render countryCodes (step s e)
  = match e with
    | FetchData => Shows LoadingIndicator
    | Success d => Shows (GeoMap (point countryCodes <$> topValues d))
    | Failure => Shows LoadingError
    end
  ∧ render countryCodes (run (evs ++ [e])) = render countryCodes (step s e).
Proof.
  split; [by destruct e|].
  rewrite run_snoc. by destruct e.
Qed.

(** X2: [data] holds the response of the most recent success callback:
    [fetchData] runs and failures that come after it neither clear nor
    change it. *)
Theorem data_is_latest_success
  (evs later : list event) (d : Response) :
  forallb (λ e, negb (is_success e)) later = true →
  data (run (evs ++ Success d :: later)) = Some d.
Proof.
  induction later as [|e later IH] using rev_ind; intros Hlater.
  - by rewrite run_snoc.
  - rewrite forallb_app, andb_true_iff in Hlater. cbn in Hlater.
    rewrite andb_true_r, negb_true_iff in Hlater.
    destruct Hlater as [Hlater He].
    rewrite app_comm_cons, app_assoc, run_snoc.
    rewrite step_keeps_data by done. by apply IH.
Qed.

Lemma data_is_latest_success_witness :
  data (run ([FetchData] ++ Success Samples.us_fr :: [FetchData; Failure]))
  = Some Samples.us_fr.
Proof.
  apply (data_is_latest_success [FetchData] [FetchData; Failure]
           Samples.us_fr).
  reflexivity.
Defined.

(** X3: in every state the component reaches, [loading] and [error] are
    never both set, and the error panel is shown exactly when [error] is
    set. *)
Theorem error_is_shown_iff_set
  {Coords : Type} (countryCodes : gmap string Coords) (evs : list event) :
  ¬ (loading (run evs) = true ∧ error (run evs) = true)
  ∧ (render countryCodes (run evs) = Shows LoadingError
     ↔ error (run evs) = true).
Proof.
  pose proof (flags_exclusive evs) as Hex. unfold render.
  destruct (loading (run evs)), (error (run evs)); try discriminate Hex.
  - split; [by intros [_ ?]|]. split; discriminate.
  - by split; [intros [? _]|].
  - split; [by intros [? _]|]. destruct (data (run evs)); split; discriminate.
Qed.

(** X4: the URL requested names its group: two group ids give the same URL
    only when they are equal, and the URL is 28 characters longer than the
    group id, which goes in whole, nothing escaped or dropped. *)
Theorem url_identifies_group (g1 g2 : string) :
  (url g1 = url g2 ↔ g1 = g2)
  ∧ String.length (url g1) = (28 + String.length g1)%nat.
Proof.
  split.
  - split; [|by intros ->].
    unfold url. intros H. apply (inj (String.append "/issues/")) in H.
    by apply append_cancel_r in H.
  - unfold url. rewrite !length_append. cbn. lia.
Qed.

(** [fetchData] leaves a state that is loading without error as it is. *)
Lemma fetchData_while_loading s :
  loading s = true → error s = false → fetchData s = s.
Proof. destruct s as [l e d]. cbn. by intros -> ->. Qed.

(** X9: until a callback runs the state is the initial state, however often
    [fetchData] has run: the [setState] of [fetchData] on mount changes
    nothing. *)
Theorem state_before_any_callback (evs : list event) :
  forallb (λ e, negb (is_callback e)) evs = true →
  run evs = getInitialState.
Proof.
  induction evs as [|e evs IH] using rev_ind; [done|].
  rewrite forallb_app, andb_true_iff. cbn. rewrite andb_true_r.
  intros [Hevs He]. rewrite run_snoc, (IH Hevs).
  by destruct e.
Qed.

Lemma state_before_any_callback_witness :
  run [FetchData; FetchData] = getInitialState.
Proof.
  apply (state_before_any_callback [FetchData; FetchData]). reflexivity.
Defined.

End GroupLocationsCoverage.

(** ** More on the decorator *)

Module WithRepositoriesCoverage.
Import JS WithRepositories WithRepositoriesProofs.

(** The defaults of [getInitialState] are all [undefined]: they are not
    seen by a property read. *)
Lemma prop_over_defaults (e : obj) (n : string) :
  prop (spread {[ "repositories" := VUndef;
                  "repositoriesLoading" := VUndef;
                  "repositoriesError" := VUndef ]} e) n
  = prop e n.
Proof.
  unfold prop, spread. destruct (e !! n) as [v|] eqn:He.
  - by rewrite (lookup_union_Some_l _ _ _ _ He).
  - rewrite lookup_union_r by done.
    destruct (decide (n = "repositories")) as [->|];
      [done|rewrite lookup_insert_ne by done].
    destruct (decide (n = "repositoriesLoading")) as [->|];
      [done|rewrite lookup_insert_ne by done].
    destruct (decide (n = "repositoriesError")) as [->|];
      [done|by rewrite lookup_singleton_ne by done].
Qed.

Lemma spread_empty_l (e : obj) : spread ∅ e = e.
Proof. unfold spread. apply (right_id_L ∅ (∪)). Qed.

(** Merging an entry twice is merging it once. *)
Lemma spread_twice (s e : obj) : spread (spread s e) e = spread s e.
Proof.
  unfold spread. by rewrite (assoc_L (∪)), (idemp_L (∪)).
Qed.

(** X5: the state a decorator starts with reads, under every property
    name, as the store's entry for its [orgSlug] does: the [undefined]
    defaults only make the three names own properties.  So the first
    [render] hands the wrapped component the entry's value for each injected
    name. *)
Theorem initial_state_reads_as_store_entry
  (get : obj → val → obj) (st p : obj) (n : string) :
  prop (getInitialState get st p) n = prop (get st (prop p "orgSlug")) n
  ∧ (n ∈ injected →
     prop (render (construct get st p)) n
     = prop (get st (prop p "orgSlug")) n).
Proof.
  assert (prop (getInitialState get st p) n
          = prop (get st (prop p "orgSlug")) n) as Hinit
    by apply prop_over_defaults.
  split; [done|]. intros Hn. rewrite <- Hinit.
  unfold render. cbn [props state construct].
  apply prop_spread_r. by apply getInitialState_has_injected.
Qed.

(** X6: a store notification handled twice is handled once, and one that
    finds the store as it was when the decorator was built changes
    nothing. *)
Theorem notification_is_idempotent
  (get : obj → val → obj) (st p : obj) (i : Instance) :
  onStoreUpdate get st (onStoreUpdate get st i) = onStoreUpdate get st i
  ∧ onStoreUpdate get st (construct get st p) = construct get st p.
Proof.
  unfold onStoreUpdate, construct, getInitialState, setState. cbn.
  rewrite !spread_empty_l. split; f_equal.
  - apply spread_twice.
  - unfold spread. by rewrite (assoc_L (∪)), (idemp_L (∪)).
Qed.

(** The state holds nothing but what the store's entries bring. *)
Definition only_injected (s : obj) : Prop :=
  ∀ n, n ∉ injected → s !! n = None.

Lemma lifetime_only_injected (get : obj → val → obj) st p us :
  (∀ st' k, only_injected (get st' k)) →
  only_injected (state (lifetime get st p us)).
Proof.
  intros Hget. unfold lifetime.
  induction us as [|u us IH] using rev_ind.
  - intros n Hn. cbn. unfold getInitialState, spread.
    rewrite lookup_union_None. split; [by apply Hget|].
    unfold injected in Hn. rewrite !elem_of_cons, elem_of_nil in Hn.
    assert (n ≠ "repositories" ∧ n ≠ "repositoriesLoading"
            ∧ n ≠ "repositoriesError") as (? & ? & ?) by tauto.
    rewrite !lookup_insert_ne by congruence.
    apply lookup_singleton_ne. congruence.
  - rewrite foldl_app. cbn. destruct u as [st'|p']; cbn; [|done].
    intros n Hn. unfold setState, spread.
    rewrite lookup_union_None. split; [|by apply IH].
    rewrite lookup_union_None. split; [by apply Hget | apply lookup_empty].
Qed.

(** X7: when the store's entries carry the three injected names and
    nothing else, the wrapped component receives every other prop exactly as
    the caller passed it, whatever store updates and prop changes the
    decorator has been through. *)
Theorem render_passes_other_props_through
  (get : obj → val → obj) (st p : obj) (us : list update) (n : string) :
  (∀ st' k m, m ∉ injected → get st' k !! m = None) →
  n ∉ injected →
  render (lifetime get st p us) !! n = props (lifetime get st p us) !! n.
Proof.
  intros Hget Hn. unfold render, spread.
  apply lookup_union_r. by apply (lifetime_only_injected get st p us Hget).
Qed.

Lemma render_passes_other_props_through_witness :
  render (lifetime RepositoryStore.get ∅ Samples.acme_props
            [StoreUpdate (Samples.loaded "acme" ["a"])]) !! "orgSlug"
  = props (lifetime RepositoryStore.get ∅ Samples.acme_props
             [StoreUpdate (Samples.loaded "acme" ["a"])]) !! "orgSlug".
Proof.
  apply (render_passes_other_props_through RepositoryStore.get ∅
           Samples.acme_props [StoreUpdate (Samples.loaded "acme" ["a"])]
           "orgSlug").
  - intros st' k m Hm. unfold RepositoryStore.get.
    case_decide; by apply lookup_entry_other.
  - unfold injected. rewrite !elem_of_cons, elem_of_nil.
    intros [H | [H | [H | H]]]; discriminate || done.
Defined.

(** One run of [fetchRepos]: nothing at all, or the two assignments and the
    call. *)
Lemma fetchRepos_cases (get : obj → val → obj) (p : obj) (w : World) :
  fetchRepos get p w = w
  ∨ (log (fetchRepos get p w)
     = log w ++ fetch_block
                  (GetRepositories (prop p "api") (prop p "orgSlug"))
     ∧ fetches (fetchRepos get p w)
       = fetches w ++ [GetRepositories (prop p "api") (prop p "orgSlug")]
     ∧ store (fetchRepos get p w)
       = <["orgSlug" := prop p "orgSlug"]>
           (<["repositoriesLoading" := VBool true]> (store w))).
Proof.
  unfold fetchRepos.
  destruct (needs_fetch (get (store w) (prop p "orgSlug"))); [right|by left].
  unfold fetches. cbn. rewrite <- !app_assoc. cbn.
  split; [done|]. split; [|done].
  by rewrite filter_app.
Qed.

(** What holds of the world after decorators have mounted on a page that
    started with the store's state [st] and an empty log. *)
Record mounted_from (st : obj) (w : World) : Prop := {
  mounted_log : log w = flat_map fetch_block (fetches w);
  mounted_frame :
    ∀ f, f ≠ "orgSlug" → f ≠ "repositoriesLoading" →
         store w !! f = st !! f;
  mounted_untouched : fetches w = [] → store w = st;
  mounted_marked :
    ∀ api k, last (fetches w) = Some (GetRepositories api k) →
             store w !! "orgSlug" = Some k
             ∧ store w !! "repositoriesLoading" = Some (VBool true)
}.

Lemma mounted_from_step (get : obj → val → obj) st p w :
  mounted_from st w → mounted_from st (fetchRepos get p w).
Proof.
  intros Hw.
  destruct (fetchRepos_cases get p w) as [-> | (Hlog & Hfetches & Hstore)];
    [done|].
  destruct Hw as [Hl Hf _ _]. split.
  - rewrite Hlog, Hfetches, flat_map_app, <- Hl. cbn. done.
  - intros f Ho Hr. rewrite Hstore, !lookup_insert_ne by done.
    by apply Hf.
  - rewrite Hfetches. intros H. by apply app_nil in H as [_ H].
  - intros api k. rewrite Hfetches, last_snoc. intros [= <- <-].
    rewrite Hstore. split; [apply lookup_insert_eq|].
    rewrite lookup_insert_ne by done. apply lookup_insert_eq.
Qed.

Lemma mount_all_snoc (get : obj → val → obj) ps p w :
  mount_all get (ps ++ [p]) w = fetchRepos get p (mount_all get ps w).
Proof. unfold mount_all. by rewrite foldl_app. Qed.

(** X8: let any decorators mount one after the other on a page with an
    empty effect log.  Every [getRepositories] call in the log comes right
    after the two assignments that mark its key as loading, and nothing else
    is logged; no field of the store's state other than [orgSlug] and
    [repositoriesLoading] has changed; the store is untouched when nothing
    was fetched and otherwise marked as loading for the key fetched last;
    and there are no more calls than mounts. *)
Theorem mounts_mark_before_every_fetch
  (get : obj → val → obj) (ps : list obj) (st : obj) :
  let w := mount_all get ps {| store := st; log := []; queue := [] |} in
  log w = flat_map fetch_block (fetches w)
  ∧ (∀ f, f ≠ "orgSlug" → f ≠ "repositoriesLoading" →
          store w !! f = st !! f)
  ∧ (fetches w = [] → store w = st)
  ∧ (∀ api k, last (fetches w) = Some (GetRepositories api k) →
              store w !! "orgSlug" = Some k
              ∧ store w !! "repositoriesLoading" = Some (VBool true))
  ∧ (length (fetches w) ≤ length ps)%nat.
Proof.
  cbn zeta.
  assert (mounted_from st
            (mount_all get ps {| store := st; log := []; queue := [] |})
          ∧ (length (fetches (mount_all get ps
                                {| store := st; log := []; queue := [] |}))
             ≤ length ps)%nat) as [[Hl Hf Hu Hm] Hlen].
  { induction ps as [|p ps IH] using rev_ind.
    - split; [by split|done].
    - destruct IH as [IH Hlen]. rewrite mount_all_snoc. split.
      + by apply mounted_from_step.
      + rewrite length_app. cbn.
        destruct (fetchRepos_cases get p
                    (mount_all get ps
                       {| store := st; log := []; queue := [] |}))
          as [-> | (_ & -> & _)]; [lia|].
        rewrite length_app. cbn. lia. }
  done.
Qed.

(** Two decorators for "acme" and one for "bolt" on an empty store with a
    store whose entries never report data or loading: each mount
    fetches. *)
Example mounts_on_a_forgetful_store :
  fetches (mount_all (λ _ _, ∅)
             [Samples.acme_props; Samples.bolt_props]
             {| store := ∅; log := []; queue := [] |})
  = [ GetRepositories (VRef 0) (VStr "acme");
      GetRepositories (VRef 0) (VStr "bolt") ].
Proof. vm_compute. reflexivity. Qed.

(** Once the entry for a key asks for no fetch, decorators for that key
    mount without effect. *)
Lemma mount_all_settled (get : obj → val → obj) (k : val) ps w :
  needs_fetch (get (store w) k) = false →
  Forall (λ p, prop p "orgSlug" = k) ps →
  mount_all get ps w = w.
Proof.
  intros Hk Hps. induction Hps as [|p ps Hp _ IH]; [done|].
  cbn. unfold componentDidMount, fetchRepos. by rewrite Hp, Hk.
Qed.

(** X10: take any store whose [get], asked for the key its state belongs
    to, reads the state's [repositoriesLoading].  When decorators for one
    key mount in a row, only the first can fetch: the world after all the
    mounts is the world after the first. *)
Theorem mounts_for_one_key_fetch_once
  (get : obj → val → obj) (p : obj) (ps : list obj) (w : World) :
  (∀ st k, prop st "orgSlug" = k →
           prop (get st k) "repositoriesLoading"
           = prop st "repositoriesLoading") →
  Forall (λ p', prop p' "orgSlug" = prop p "orgSlug") ps →
  mount_all get (p :: ps) w = fetchRepos get p w.
Proof.
  intros Hget Hps.
  change (mount_all get (p :: ps) w)
    with (mount_all get ps (fetchRepos get p w)).
  apply (mount_all_settled get (prop p "orgSlug")); [|done].
  unfold fetchRepos.
  destruct (needs_fetch (get (store w) (prop p "orgSlug"))) eqn:Hneed;
    [|done].
  unfold needs_fetch. rewrite Hget.
  - cbn. rewrite (prop_lookup _ "repositoriesLoading" (VBool true)).
    + cbn. apply andb_false_r.
    + rewrite lookup_insert_ne by done. apply lookup_insert_eq.
  - cbn. apply prop_lookup, lookup_insert_eq.
Qed.

Lemma mounts_for_one_key_fetch_once_witness :
  mount_all RepositoryStore.get
    (Samples.acme_props :: [Samples.acme_props'; Samples.acme_props])
    {| store := ∅; log := []; queue := [] |}
  = fetchRepos RepositoryStore.get Samples.acme_props
      {| store := ∅; log := []; queue := [] |}.
Proof.
  apply (mounts_for_one_key_fetch_once RepositoryStore.get
           Samples.acme_props [Samples.acme_props'; Samples.acme_props]).
  - intros st k Hk. unfold RepositoryStore.get.
    rewrite decide_True by done. apply prop_entry_hit.
    unfold injected. rewrite !elem_of_cons. tauto.
  - repeat constructor.
Defined.

(** X11: a store notification whose entry has every property the entry of
    an earlier notification had leaves no trace of the earlier one: the
    decorator ends as if only the later notification had come. *)
Theorem later_notification_overrides
  (get : obj → val → obj) (st1 st2 : obj) (i : Instance) :
  (∀ n, is_Some (get st1 (prop (props i) "orgSlug") !! n) →
        is_Some (get st2 (prop (props i) "orgSlug") !! n)) →
  onStoreUpdate get st2 (onStoreUpdate get st1 i) = onStoreUpdate get st2 i.
Proof.
  intros Hdom. unfold onStoreUpdate, setState. cbn.
  rewrite !spread_empty_l. f_equal. unfold spread.
  apply map_eq. intros n. rewrite !lookup_union.
  destruct (get st2 (prop (props i) "orgSlug") !! n) as [v2|] eqn:H2;
    [by rewrite !union_Some_l|].
  destruct (get st1 (prop (props i) "orgSlug") !! n) as [v1|] eqn:H1;
    [|by destruct (state i !! n)].
  destruct (Hdom n) as [v Hv]; [by rewrite H1|]. congruence.
Qed.

Lemma later_notification_overrides_witness :
  onStoreUpdate RepositoryStore.get (Samples.loaded "acme" ["a"])
    (onStoreUpdate RepositoryStore.get (Samples.loaded "bolt" ["b"])
       (construct RepositoryStore.get ∅ Samples.acme_props))
  = onStoreUpdate RepositoryStore.get (Samples.loaded "acme" ["a"])
      (construct RepositoryStore.get ∅ Samples.acme_props).
Proof.
  apply (later_notification_overrides RepositoryStore.get
           (Samples.loaded "bolt" ["b"]) (Samples.loaded "acme" ["a"])
           (construct RepositoryStore.get ∅ Samples.acme_props)).
  intros n. unfold RepositoryStore.get.
  repeat case_decide; rewrite !lookup_entry; by repeat case_decide.
Defined.

End WithRepositoriesCoverage.
